(** * User-account core of melo-finance-manager: model of
      [src/user_management/app/models/user.py]

    The module is embedded as Rocq functions in a state-and-exception monad.
    Everything the module imports from outside the file (bcrypt, the e-mail
    validator, the text codec, the ORM session, the token service) is a
    field of the record [Externals]; the functions of [user.py] are
    translated line by line on top of it. *)

From Stdlib Require Import ZArith String Ascii.
From Stdlib Require Import Strings.Byte.
From stdpp Require Import base option gmap strings list fin_maps.

Local Open Scope string_scope.

(** ** Python values that reach the module *)

(** A request payload is decoded JSON: its values are [None], booleans,
    integers and strings (floats and nested containers are left out). *)
Inductive value : Type :=
| VNone
| VBool (b : bool)
| VInt (z : Z)
| VStr (s : string).

(** [bytes] objects. *)
Definition bytes : Type := list byte.

(** Python's [==] on these values: [bool] is a subclass of [int], so
    [True == 1]; values of unrelated types are different. *)
Definition as_number (v : value) : option Z :=
  match v with
  | VBool b => Some (if b then 1 else 0)%Z
  | VInt z => Some z
  | _ => None
  end.

Definition py_eq (a b : value) : bool :=
  match a, b with
  | VNone, VNone => true
  | VStr s, VStr t => String.eqb s t
  | _, _ =>
      match as_number a, as_number b with
      | Some x, Some y => Z.eqb x y
      | _, _ => false
      end
  end.

Definition type_name (v : value) : string :=
  match v with
  | VNone => "NoneType"
  | VBool _ => "bool"
  | VInt _ => "int"
  | VStr _ => "str"
  end.

(** [data] as [get_patch_fields] receives it: a mapping with string keys,
    or some other object. *)
Inductive payload : Type :=
| Mapping (d : gmap string value)
| NotMapping (v : value).

(** ** Exceptions *)

(** Modelled from the spec: [app/models/errors.py] is not part of the
    sources at hand.  [UnauthorizedException] is the spec's [AuthError] and
    [UnprocessableContentException] its [ValidationError]; both are ordinary
    [Exception] subclasses built from a detail and, for the first, optional
    response headers.  [cause] is the [__cause__] set by [raise ... from].
    [PyError] stands for every exception raised by the interpreter or by a
    library ([TypeError], [AttributeError], [ValueError],
    [EmailNotValidError], ...). *)
#[warnings="-register-all"]
Inductive exn : Type :=
| PyError (cls : string) (msg : string)
| UnauthorizedException
    (detail : string) (headers : option (gmap string string))
    (cause : option exn)
| UnprocessableContentException
    (detail : string + exn) (cause : option exn).

(** What a client can see of an error: its kind, detail and headers, not
    the chained cause. *)
Inductive outward : Type :=
| AuthError (detail : string) (headers : option (gmap string string))
| ValidationError (detail : string + exn)
| InternalError (cls : string) (msg : string).

Definition observable (e : exn) : outward :=
  match e with
  | PyError c m => InternalError c m
  | UnauthorizedException d h _ => AuthError d h
  | UnprocessableContentException d _ => ValidationError d
  end.

Definition is_TypeError (e : exn) : bool :=
  match e with
  | PyError cls _ => String.eqb cls "TypeError"
  | _ => false
  end.

(** ** The monad: a world that calls may read and change, and exceptions *)

Inductive result (A : Type) : Type :=
| Return (a : A)
| Raised (e : exn).
Arguments Return {A} a.
Arguments Raised {A} e.

Section Monad.
Context {W : Type}.

Definition M (A : Type) : Type := W -> result A * W.

Definition ret {A} (a : A) : M A := fun w => (Return a, w).

Definition raise {A} (e : exn) : M A := fun w => (Raised e, w).

Definition bind {A B} (c : M A) (k : A -> M B) : M B :=
  fun w =>
    match c w with
    | (Return a, w') => k a w'
    | (Raised e, w') => (Raised e, w')
    end.

Definition map_result {A B} (f : A -> B) (c : M A) : M B :=
  bind c (fun a => ret (f a)).

(** [try: body  except Exception as exc: handler exc] *)
Definition try_except {A} (body : M A) (handler : exn -> M A) : M A :=
  fun w =>
    match body w with
    | (Return a, w') => (Return a, w')
    | (Raised e, w') => handler e w'
    end.

(** [try: body  except TypeError as exc: handler exc] *)
Definition try_except_TypeError {A}
    (body : M A) (handler : exn -> M A) : M A :=
  try_except body (fun e => if is_TypeError e then handler e else raise e).
End Monad.
Arguments M W A : clear implicits.

Notation "'let*' x ':=' c 'in' k" := (bind c (fun x => k))
  (at level 10, x name, c at level 100, k at level 200).

(** ** Records of the module *)

(** A row of the [users] table. *)
Record User : Type := mkUser {
  user_id : Z;
  user_email : string;
  user_password : string;
  user_full_name : string;
  user_role : string
}.

Record UserResponse : Type := mkUserResponse {
  resp_email : string;
  resp_full_name : string;
  resp_role : string
}.

(** The request to create a user, after [__post_init__]. *)
Record CreateUser : Type := mkCreateUser {
  cu_email : value;
  cu_password : value;
  cu_full_name : value;
  cu_role : string
}.

(** Modelled from the spec: [Unset] is imported from [app.config], whose
    source at hand does not define it; the spec describes it as a singleton
    marker for an omitted optional field, distinct from [None]. *)
Inductive field : Type :=
| Unset
| Provided (v : value).

Record PatchUser : Type := mkPatchUser {
  pu_full_name : field
}.

Record PatchUserPassword : Type := mkPatchUserPassword {
  pup_old_password : value;
  pup_new_password : value
}.

Record PatchUserEmail : Type := mkPatchUserEmail {
  pue_email : value
}.

(** ** What the module imports *)

Record Externals (W : Type) : Type := mkExternals {
  (** [email_validator.validate_email(x).normalized] *)
  validate_email : value -> M W string;
  (** [s.encode('utf-8')] on a [str] *)
  str_encode : string -> M W bytes;
  (** [b.decode('utf-8')] on a [bytes] *)
  bytes_decode : bytes -> M W string;
  (** [bcrypt.gensalt()] *)
  bcrypt_gensalt : M W bytes;
  (** [bcrypt.hashpw(password, salt)] *)
  bcrypt_hashpw : bytes -> bytes -> M W bytes;
  (** [bcrypt.checkpw(password, hashed_password)] *)
  bcrypt_checkpw : bytes -> bytes -> M W bool;
  (** [cls.query.filter_by(email=email).first()] *)
  query_filter_by_email_first : string -> M W (option User);
  (** Modelled from the spec: [BaseModel.get_one(id=...)] lives in
      [app/models/base.py], which is not at hand; the spec's repository
      interface is [get_by_id(id) -> UserAccount | NotFound], a lookup that
      fails when there is no such record, and the docstring of
      [authenticate] promises the user or an exception. *)
  get_one : Z -> M W User;
  (** [AuthService.generate_token(user_id)] *)
  generate_token : Z -> M W (string * string);
  (** [AuthService.verify_token(token)] *)
  verify_token : string -> M W Z
}.
Arguments validate_email {W} _ _ _.
Arguments str_encode {W} _ _ _.
Arguments bytes_decode {W} _ _ _.
Arguments bcrypt_gensalt {W} _ _.
Arguments bcrypt_hashpw {W} _ _ _ _.
Arguments bcrypt_checkpw {W} _ _ _ _.
Arguments query_filter_by_email_first {W} _ _ _.
Arguments get_one {W} _ _ _.
Arguments generate_token {W} _ _ _.
Arguments verify_token {W} _ _ _.

(** ** [str.split(sep)] with an explicit one-character separator *)

Fixpoint split (sep : ascii) (s : string) : list string :=
  match s with
  | EmptyString => [EmptyString]
  | String c r =>
      if Ascii.eqb c sep then EmptyString :: split sep r
      else match split sep r with
           | h :: t => String c h :: t
           | [] => [String c EmptyString]
           end
  end.

(** [sep.join(parts)] *)
Fixpoint join (sep : ascii) (parts : list string) : string :=
  match parts with
  | [] => EmptyString
  | p :: rest =>
      match rest with
      | [] => p
      | _ :: _ => p ++ String sep (join sep rest)
      end
  end.

Fixpoint has_char (c : ascii) (s : string) : bool :=
  match s with
  | EmptyString => false
  | String x r => Ascii.eqb x c || has_char c r
  end.

(** ** The functions of [user.py] *)

Section UserModule.
Context {W : Type} (L : Externals W).

(** [x.encode('utf-8')]: only a [str] has the method. *)
Definition encode_utf8 (v : value) : M W bytes :=
  match v with
  | VStr s => str_encode L s
  | _ =>
      raise (PyError "AttributeError"
               ("'" ++ type_name v ++ "' object has no attribute 'encode'"))
  end.

(** [User.hash_password] *)
Definition hash_password (password : value) : M W bytes :=
  let* salt := bcrypt_gensalt L in
  let* pw := encode_utf8 password in
  let* hashed_password := bcrypt_hashpw L pw salt in
  ret hashed_password.

(** [User.hash_password(password).decode('utf-8')], the text that is
    kept for a password. *)
Definition hash_password_decoded (password : value) : M W string :=
  let* hashed := hash_password password in
  bytes_decode L hashed.

(** [User.check_password] *)
Definition check_password (self : User) (password : string) : M W bool :=
  let* pw := str_encode L password in
  let* stored := str_encode L (user_password self) in
  bcrypt_checkpw L pw stored.

(** [User.login] *)
Definition login (email password : string) : M W (string * string) :=
  try_except
    (let* user := query_filter_by_email_first L email in
     match user with
     | None => raise (UnauthorizedException "User not found" None None)
     | Some user =>
         let* ok := check_password user password in
         if ok then generate_token L (user_id user)
         else raise (UnauthorizedException "Password is incorrect" None None)
     end)
    (fun exc =>
       raise (UnauthorizedException "Invalid credentials" None (Some exc))).

(** [User.authenticate] *)
Definition authenticate (token : string) : M W User :=
  try_except
    (match split " " token with
     | [bearer; token] =>
         if String.eqb bearer "Bearer" then
           let* uid := verify_token L token in
           get_one L uid
         else raise (UnauthorizedException "Invalid token" None None)
     | _ => raise (UnauthorizedException "Invalid token" None None)
     end)
    (fun exc =>
       raise (UnauthorizedException "Invalid Token"
                (Some {[ "WWW-Authenticate" := "bearer" ]}) (Some exc))).

(** [UserResponse(email=..., full_name=..., role=...)]: the generated
    [__init__] followed by [__post_init__]. *)
Definition new_UserResponse (email full_name role : string)
    : M W UserResponse :=
  try_except
    (let* normalized := validate_email L (VStr email) in
     ret (mkUserResponse normalized full_name role))
    (fun exc =>
       raise (UnprocessableContentException (inr exc) (Some exc))).

(** [CreateUser(email=..., password=..., full_name=...)]: [role] is no
    parameter of the generated [__init__] ([init=False]) and is set to its
    default; [__post_init__] then normalizes the e-mail and hashes the
    password, in that order. *)
Definition new_CreateUser (email password full_name : value)
    : M W CreateUser :=
  let role := "user" in
  try_except
    (let* normalized := validate_email L email in
     let* hashed := hash_password password in
     let* text := bytes_decode L hashed in
     ret (mkCreateUser (VStr normalized) (VStr text) full_name role))
    (fun exc =>
       raise (UnprocessableContentException (inr exc) (Some exc))).

(** [PatchUser] built from the payload's items as keyword arguments: the
    only keyword the generated [__init__] takes is [full_name], with
    default [Unset]; any other key is a [TypeError] (whose message, which
    names the key, is shortened). *)
Definition new_PatchUser (data : gmap string value) : M W PatchUser :=
  if bool_decide (dom data ⊆ {[ "full_name" ]}) then
    ret (mkPatchUser
           match data !! "full_name" with
           | Some v => Provided v
           | None => Unset
           end)
  else raise (PyError "TypeError" "got an unexpected keyword argument").

(** [PatchUserPassword(old_password=..., new_password=...)] *)
Definition new_PatchUserPassword (old_password new_password : value)
    : M W PatchUserPassword :=
  if py_eq new_password old_password then
    raise (UnprocessableContentException
             (inl "New password must be different from the old password")
             None)
  else
    try_except
      (let* hashed := hash_password new_password in
       let* text := bytes_decode L hashed in
       ret (mkPatchUserPassword old_password (VStr text)))
      (fun exc =>
         raise (UnprocessableContentException
                  (inl "Passwords are invalid") (Some exc))).

(** [PatchUserEmail(email=...)] *)
Definition new_PatchUserEmail (email : value) : M W PatchUserEmail :=
  try_except
    (let* normalized := validate_email L email in
     ret (mkPatchUserEmail (VStr normalized)))
    (fun exc =>
       raise (UnprocessableContentException (inr exc) (Some exc))).

(** [vars(obj)] of the three patch dataclasses. *)
Definition vars_PatchUser (p : PatchUser) : list (string * field) :=
  [("full_name", pu_full_name p)].

Definition vars_PatchUserPassword (p : PatchUserPassword)
    : gmap string value :=
  {[ "old_password" := pup_old_password p;
     "new_password" := pup_new_password p ]}.

Definition vars_PatchUserEmail (p : PatchUserEmail) : gmap string value :=
  {[ "email" := pue_email p ]}.

(** [{key: value for key, value in items if value is not Unset}] *)
Definition not_Unset (items : list (string * field))
    : gmap string value :=
  list_to_map
    (omap (fun kv => match snd kv with
                     | Unset => None
                     | Provided v => Some (fst kv, v)
                     end) items).

(** The [match data:] statement: the first pattern that fits wins.  A
    mapping pattern fits when the subject is a mapping holding each of
    the pattern's keys; further keys are ignored. *)
Inductive matched : Type :=
| CaseEmail (email : value)
| CasePassword (old_password new_password : value)
| CaseGeneric (data : gmap string value)
| NoCase.

Definition match_data (data : payload) : matched :=
  match data with
  | Mapping d =>
      match d !! "email" with
      | Some email => CaseEmail email
      | None =>
          match d !! "old_password", d !! "new_password" with
          | Some old_password, Some new_password =>
              CasePassword old_password new_password
          | _, _ => CaseGeneric d
          end
      end
  | NotMapping _ => NoCase
  end.

(** [get_patch_fields] *)
Definition get_patch_fields (data : payload) : M W (gmap string value) :=
  match match_data data with
  | CaseEmail email =>
      map_result vars_PatchUserEmail (new_PatchUserEmail email)
  | CasePassword old_password new_password =>
      map_result vars_PatchUserPassword
        (new_PatchUserPassword old_password new_password)
  | CaseGeneric data =>
      try_except_TypeError
        (let* p := new_PatchUser data in
         ret (not_Unset (vars_PatchUser p)))
        (fun exc =>
           raise (UnprocessableContentException
                    (inl "Invalid data") (Some exc)))
  | NoCase =>
      raise (UnprocessableContentException (inl "Invalid data") None)
  end.
End UserModule.

(** ** A test double for the imports

    Stand-ins used to run the functions above on concrete inputs, in the
    manner of a unit-test fixture: the world is the number of salts drawn
    so far, the "hash" is the salt followed by the password, and the user
    table has one row. *)
Module Fixture.
Definition world : Type := nat.

Definition invalid_email {A} : M world A :=
  raise (PyError "EmailNotValidError" "not a valid email address").

Definition fx_validate_email (v : value) : M world string :=
  match v with
  | VStr s => if has_char "@" s then ret s else invalid_email
  | _ => invalid_email
  end.

Definition fx_str_encode (s : string) : M world bytes :=
  ret (list_byte_of_string s).

Definition fx_bytes_decode (b : bytes) : M world string :=
  ret (string_of_list_byte b).

Definition fx_gensalt : M world bytes :=
  fun n => (Return (list_byte_of_string "salt" ++ repeat x2e n)%list, S n).

Definition fx_hashpw (password salt : bytes) : M world bytes :=
  ret (salt ++ list_byte_of_string "$" ++ password)%list.

Definition fx_checkpw (password hashed : bytes) : M world bool :=
  ret (String.eqb
         (string_of_list_byte
            (drop (length hashed - length password) hashed))
         (string_of_list_byte password)).

Definition users : list User :=
  [mkUser 1 "real@example.com" "salt$rightpass" "Real User" "user"].

Definition fx_query (email : string) : M world (option User) :=
  ret (List.find (fun u => String.eqb (user_email u) email) users).

Definition fx_get_one (uid : Z) : M world User :=
  match List.find (fun u => Z.eqb (user_id u) uid) users with
  | Some u => ret u
  | None => raise (PyError "NotFound" "no such user")
  end.

Definition fx_generate_token (uid : Z) : M world (string * string) :=
  ret ("signed-token", "expiry").

Definition fx_verify_token (token : string) : M world Z :=
  if String.eqb token "signed-token" then ret 1%Z
  else raise (PyError "InvalidTokenError" "bad signature").

Definition libs : Externals world :=
  mkExternals world fx_validate_email fx_str_encode fx_bytes_decode
    fx_gensalt fx_hashpw fx_checkpw fx_query fx_get_one
    fx_generate_token fx_verify_token.

(** The same libraries in front of an empty user table, with a password
    check that accepts nothing and a token service that is down. *)
Definition libs_empty_store : Externals world :=
  mkExternals world fx_validate_email fx_str_encode fx_bytes_decode
    fx_gensalt fx_hashpw
    (fun _ _ => ret false)
    (fun _ => ret None)
    (fun _ => raise (PyError "NotFound" "no such user"))
    (fun _ => raise (PyError "RuntimeError" "token service down"))
    (fun _ => raise (PyError "RuntimeError" "token service down")).
End Fixture.


(** * Properties *)

(** ** [str.split] *)

Lemma split_nonempty sep s : split sep s <> [].
Proof.
  destruct s as [|c r]; simpl; [discriminate|].
  destruct (Ascii.eqb c sep); [discriminate|].
  destruct (split sep r); discriminate.
Qed.

Lemma split_no_sep sep s : has_char sep s = false -> split sep s = [s].
Proof.
  induction s as [|c r IH]; simpl; intros H; [reflexivity|].
  apply orb_false_iff in H as [Hc Hr].
  rewrite Hc, (IH Hr). reflexivity.
Qed.

Lemma split_one sep s b :
  split sep s = [b] -> s = b /\ has_char sep b = false.
Proof.
  revert b. induction s as [|c r IH]; simpl; intros b H.
  - inversion H. split; reflexivity.
  - destruct (Ascii.eqb c sep) eqn:Hc.
    + inversion H as [[Hb Hr]]. destruct (split_nonempty _ _ Hr).
    + destruct (split sep r) as [|h t] eqn:Hs.
      * destruct (split_nonempty _ _ Hs).
      * inversion H; subst. destruct (IH h eq_refl) as [-> Hh].
        split; [reflexivity|]. simpl. rewrite Hc, Hh. reflexivity.
Qed.

Lemma split_two sep s a b :
  split sep s = [a; b] ->
  s = (a ++ String sep b)%string /\
  has_char sep a = false /\ has_char sep b = false.
Proof.
  revert a. induction s as [|c r IH]; simpl; intros a H.
  - discriminate.
  - destruct (Ascii.eqb c sep) eqn:Hc.
    + apply Ascii.eqb_eq in Hc. subst c.
      inversion H as [[Ha Hr]]. apply split_one in Hr as [-> Hb].
      repeat split; try reflexivity. assumption.
    + destruct (split sep r) as [|h t] eqn:Hs; [discriminate|].
      inversion H; subst.
      destruct (IH h eq_refl) as (-> & Hh & Hb).
      repeat split; try assumption. simpl. rewrite Hc, Hh. reflexivity.
Qed.

Lemma split_bearer tok :
  has_char " " tok = false -> split " " ("Bearer " ++ tok) = ["Bearer"; tok].
Proof.
  intros H. simpl.
  change (split " " ("" ++ tok)) with (split " " tok).
  rewrite (split_no_sep _ _ H). reflexivity.
Qed.

(** ** The dispatch of [get_patch_fields] *)

Lemma password_keys (d : gmap string value) :
  dom d = {[ "old_password"; "new_password" ]} ->
  d !! "email" = None /\
  exists o n, d !! "old_password" = Some o /\ d !! "new_password" = Some n.
Proof.
  intros H. split.
  - apply not_elem_of_dom. rewrite H.
    rewrite elem_of_union, !elem_of_singleton. intros [?|?]; discriminate.
  - assert (Ho : "old_password" ∈ dom d) by (rewrite H; set_solver).
    assert (Hn : "new_password" ∈ dom d) by (rewrite H; set_solver).
    apply elem_of_dom in Ho as [o Ho]. apply elem_of_dom in Hn as [n Hn].
    exists o, n. split; assumption.
Qed.

Lemma match_data_email (d : gmap string value) e :
  d !! "email" = Some e -> match_data (Mapping d) = CaseEmail e.
Proof. intros H. unfold match_data. rewrite H. reflexivity. Qed.

Lemma match_data_password (d : gmap string value) o n :
  d !! "email" = None ->
  d !! "old_password" = Some o -> d !! "new_password" = Some n ->
  match_data (Mapping d) = CasePassword o n.
Proof. intros He Ho Hn. unfold match_data. rewrite He, Ho, Hn. reflexivity. Qed.

Lemma match_data_generic (d : gmap string value) :
  d !! "email" = None ->
  d !! "old_password" = None \/ d !! "new_password" = None ->
  match_data (Mapping d) = CaseGeneric d.
Proof.
  intros He [H|H]; unfold match_data; rewrite He, H;
    [|destruct (d !! "old_password")]; reflexivity.
Qed.

(** What the password branch computes, step by step. *)
Lemma new_PatchUserPassword_run {W} (L : Externals W) o n w :
  map_result vars_PatchUserPassword (new_PatchUserPassword L o n) w =
  if py_eq n o then
    (Raised (UnprocessableContentException
               (inl "New password must be different from the old password")
               None), w)
  else
    match hash_password_decoded L n w with
    | (Return h, w') =>
        (Return {[ "old_password" := o; "new_password" := VStr h ]}, w')
    | (Raised e, w') =>
        (Raised (UnprocessableContentException
                   (inl "Passwords are invalid") (Some e)), w')
    end.
Proof.
  unfold map_result, new_PatchUserPassword, hash_password_decoded.
  destruct (py_eq n o); [reflexivity|].
  unfold bind, try_except, ret, raise.
  destruct (hash_password L n w) as [[h|e] w1]; [|reflexivity].
  destruct (bytes_decode L h w1) as [[t|e] w2]; reflexivity.
Qed.

(** What the generic branch computes. *)
Lemma generic_run {W} (L : Externals W) (d : gmap string value) w :
  match_data (Mapping d) = CaseGeneric d ->
  get_patch_fields L (Mapping d) w =
  if bool_decide (dom d ⊆ {[ "full_name" ]}) then
    (Return match d !! "full_name" with
            | Some v => {[ "full_name" := v ]}
            | None => ∅
            end, w)
  else
    (Raised (UnprocessableContentException (inl "Invalid data")
               (Some (PyError "TypeError"
                        "got an unexpected keyword argument"))), w).
Proof.
  intros H. unfold get_patch_fields. rewrite H.
  unfold try_except_TypeError, try_except, bind, new_PatchUser.
  destruct (bool_decide (dom d ⊆ {[ "full_name" ]})); [|reflexivity].
  unfold ret, not_Unset, vars_PatchUser. simpl.
  destruct (d !! "full_name"); reflexivity.
Qed.

(** C7: the resolver tries the e-mail shape, then the password shape, then
    the generic fallback; a payload whose key set is exactly
    {old_password, new_password} is taken by the password branch, and what
    the resolver does with it is what [PatchUserPassword] does, never the
    generic patch. *)
Theorem dispatch_password_before_generic
    {W} (L : Externals W) (d : gmap string value) :
  dom d = {[ "old_password"; "new_password" ]} ->
  exists o n,
    d !! "old_password" = Some o /\ d !! "new_password" = Some n /\
    match_data (Mapping d) = CasePassword o n /\
    match_data (Mapping d) <> CaseGeneric d /\
    get_patch_fields L (Mapping d) =
    map_result vars_PatchUserPassword (new_PatchUserPassword L o n).
Proof.
  intros H. destruct (password_keys d H) as (He & o & n & Ho & Hn).
  exists o, n. pose proof (match_data_password d o n He Ho Hn) as Hm.
  repeat split; try assumption.
  - rewrite Hm. discriminate.
  - unfold get_patch_fields. rewrite Hm. reflexivity.
Qed.

Lemma dispatch_password_before_generic_witness :
  let d : gmap string value :=
    {[ "old_password" := VStr "a"; "new_password" := VStr "b" ]} in
  dom d = {[ "old_password"; "new_password" ]} /\
  exists o n,
    d !! "old_password" = Some o /\ d !! "new_password" = Some n /\
    match_data (Mapping d) = CasePassword o n /\
    match_data (Mapping d) <> CaseGeneric d /\
    get_patch_fields Fixture.libs (Mapping d) =
    map_result vars_PatchUserPassword
      (new_PatchUserPassword Fixture.libs o n).
Proof.
  intros d.
  assert (H : dom d = {[ "old_password"; "new_password" ]})
    by (vm_compute; reflexivity).
  split; [exact H | exact (dispatch_password_before_generic Fixture.libs d H)].
Defined.

(** C1 (as amended): for a payload whose key set is exactly
    {old_password, new_password}: when the new password equals the old one
    the resolver fails with the validation error "New password must be
    different from the old password"; otherwise it hashes the new password
    and, when hashing succeeds, returns exactly the two fields
    {old_password: the old password as given, new_password: the hash};
    when hashing fails it fails with the validation error "Passwords are
    invalid". *)
Theorem get_patch_fields_password
    {W} (L : Externals W) (d : gmap string value) (w : W) :
  dom d = {[ "old_password"; "new_password" ]} ->
  exists o n,
    d !! "old_password" = Some o /\ d !! "new_password" = Some n /\
    get_patch_fields L (Mapping d) w =
    if py_eq n o then
      (Raised (UnprocessableContentException
                 (inl "New password must be different from the old password")
                 None), w)
    else
      match hash_password_decoded L n w with
      | (Return h, w') =>
          (Return {[ "old_password" := o; "new_password" := VStr h ]}, w')
      | (Raised e, w') =>
          (Raised (UnprocessableContentException
                     (inl "Passwords are invalid") (Some e)), w')
      end.
Proof.
  intros H. destruct (password_keys d H) as (He & o & n & Ho & Hn).
  exists o, n. repeat split; try assumption.
  unfold get_patch_fields.
  rewrite (match_data_password d o n He Ho Hn).
  apply new_PatchUserPassword_run.
Qed.

Lemma get_patch_fields_password_witness :
  let d : gmap string value :=
    {[ "old_password" := VStr "a"; "new_password" := VStr "b" ]} in
  dom d = {[ "old_password"; "new_password" ]} /\
  exists o n,
    d !! "old_password" = Some o /\ d !! "new_password" = Some n /\
    get_patch_fields Fixture.libs (Mapping d) 0 =
    if py_eq n o then
      (Raised (UnprocessableContentException
                 (inl "New password must be different from the old password")
                 None), 0)
    else
      match hash_password_decoded Fixture.libs n 0 with
      | (Return h, w') =>
          (Return {[ "old_password" := o; "new_password" := VStr h ]}, w')
      | (Raised e, w') =>
          (Raised (UnprocessableContentException
                     (inl "Passwords are invalid") (Some e)), w')
      end.
Proof.
  intros d.
  assert (H : dom d = {[ "old_password"; "new_password" ]})
    by (vm_compute; reflexivity).
  split; [exact H | exact (get_patch_fields_password Fixture.libs d 0 H)].
Defined.

(** C1 as the spec words it does not hold: for the payload
    {old_password: "a", new_password: "b"} the resolver returns the two
    fields old_password (still the plain text "a") and new_password (the
    hash), which is no map of the form {password: hash}. *)
Lemma get_patch_fields_password_not_single_field :
  let d : gmap string value :=
    {[ "old_password" := VStr "a"; "new_password" := VStr "b" ]} in
  dom d = {[ "old_password"; "new_password" ]} /\
  py_eq (VStr "b") (VStr "a") = false /\
  get_patch_fields Fixture.libs (Mapping d) 0 =
    (Return {[ "old_password" := VStr "a";
               "new_password" := VStr "salt$b" ]}, 1) /\
  forall h, fst (get_patch_fields Fixture.libs (Mapping d) 0)
            <> Return {[ "password" := h ]}.
Proof.
  intros d.
  assert (E : get_patch_fields Fixture.libs (Mapping d) 0 =
              (Return {[ "old_password" := VStr "a";
                         "new_password" := VStr "salt$b" ]}, 1))
    by (vm_compute; reflexivity).
  split; [vm_compute; reflexivity|].
  split; [reflexivity|]. split; [exact E|].
  intros h. rewrite E. simpl. intros Heq.
  pose proof (f_equal (fun r : result (gmap string value) =>
                         match r with
                         | Return m => m !! "old_password"
                         | Raised _ => None
                         end) Heq) as Hm.
  vm_compute in Hm. discriminate.
Qed.

(** ** The e-mail branch *)

Lemma new_PatchUserEmail_run {W} (L : Externals W) e w :
  map_result vars_PatchUserEmail (new_PatchUserEmail L e) w =
  match validate_email L e w with
  | (Return n, w') => (Return {[ "email" := VStr n ]}, w')
  | (Raised x, w') =>
      (Raised (UnprocessableContentException (inr x) (Some x)), w')
  end.
Proof.
  unfold map_result, new_PatchUserEmail, bind, try_except, ret, raise.
  destruct (validate_email L e w) as [[n|x] w']; reflexivity.
Qed.

(** C2 (as amended): the resolver produces {email: normalized email}
    exactly when the payload holds the key email, whatever other keys it
    holds, and the address under it is valid; the other keys are ignored.
    With an invalid address under email it fails with a validation error,
    and without the key email its result never has the field email. *)
Theorem get_patch_fields_email
    {W} (L : Externals W) (d : gmap string value) (w : W) :
  (forall e, d !! "email" = Some e ->
     get_patch_fields L (Mapping d) w =
     match validate_email L e w with
     | (Return n, w') => (Return {[ "email" := VStr n ]}, w')
     | (Raised x, w') =>
         (Raised (UnprocessableContentException (inr x) (Some x)), w')
     end) /\
  (d !! "email" = None ->
     forall m w', get_patch_fields L (Mapping d) w = (Return m, w') ->
                  m !! "email" = None).
Proof.
  split.
  - intros e He. unfold get_patch_fields.
    rewrite (match_data_email d e He). apply new_PatchUserEmail_run.
  - intros He m w' Hrun.
    destruct (d !! "old_password") as [o|] eqn:Ho;
      [destruct (d !! "new_password") as [n|] eqn:Hn|].
    + unfold get_patch_fields in Hrun.
      rewrite (match_data_password d o n He Ho Hn) in Hrun.
      rewrite new_PatchUserPassword_run in Hrun.
      destruct (py_eq n o); [discriminate|].
      destruct (hash_password_decoded L n w) as [[h|x] w1];
        inversion Hrun; subst.
      rewrite lookup_insert_ne by discriminate.
      rewrite lookup_singleton_ne by discriminate. reflexivity.
    + rewrite (generic_run L d w) in Hrun
        by (apply match_data_generic; auto).
      destruct (bool_decide _); inversion Hrun; subst.
      destruct (d !! "full_name").
      * rewrite lookup_singleton_ne by discriminate. reflexivity.
      * apply lookup_empty.
    + rewrite (generic_run L d w) in Hrun
        by (apply match_data_generic; auto).
      destruct (bool_decide _); inversion Hrun; subst.
      destruct (d !! "full_name").
      * rewrite lookup_singleton_ne by discriminate. reflexivity.
      * apply lookup_empty.
Qed.

Lemma get_patch_fields_email_witness :
  let d : gmap string value :=
    {[ "email" := VStr "a@b.com"; "nickname" := VStr "Ann" ]} in
  get_patch_fields Fixture.libs (Mapping d) 0 =
    (Return {[ "email" := VStr "a@b.com" ]}, 0) /\
  forall m w',
    get_patch_fields Fixture.libs (Mapping {[ "full_name" := VStr "Ann" ]}) 0
      = (Return m, w') ->
    m !! "email" = None.
Proof.
  intros d. split.
  - apply (proj1 (get_patch_fields_email Fixture.libs d 0) (VStr "a@b.com")).
    vm_compute. reflexivity.
  - apply (proj2 (get_patch_fields_email Fixture.libs
                    {[ "full_name" := VStr "Ann" ]} 0)).
    vm_compute. reflexivity.
Defined.

(** C2 as the spec words it does not hold: the payload
    {email: "a@b.com", nickname: "Ann"} holds the key email together with
    an unknown key, yet the resolver does not fail: it returns the e-mail
    patch {email: "a@b.com"}. *)
Lemma get_patch_fields_email_extra_key_accepted :
  let d : gmap string value :=
    {[ "email" := VStr "a@b.com"; "nickname" := VStr "Ann" ]} in
  "email" ∈ dom d /\ dom d <> {[ "email" ]} /\
  get_patch_fields Fixture.libs (Mapping d) 0 =
    (Return {[ "email" := VStr "a@b.com" ]}, 0).
Proof.
  intros d. split; [|split].
  - apply elem_of_dom. exists (VStr "a@b.com"). vm_compute. reflexivity.
  - intros H.
    assert (Hn : "nickname" ∈ dom d)
      by (apply elem_of_dom; exists (VStr "Ann"); vm_compute; reflexivity).
    rewrite H in Hn. apply elem_of_singleton in Hn. discriminate.
  - vm_compute. reflexivity.
Qed.

(** ** The generic branch *)

Lemma not_Unset_vars (p : PatchUser) k v :
  not_Unset (vars_PatchUser p) !! k = Some v <->
  (k, Provided v) ∈ vars_PatchUser p.
Proof.
  unfold not_Unset, vars_PatchUser. destruct p as [[|x]]; simpl.
  - rewrite lookup_empty. split; [discriminate|].
    intros H. apply list_elem_of_singleton in H. discriminate.
  - rewrite list_elem_of_singleton. split.
    + intros H. apply lookup_insert_Some in H as [[<- <-]|[_ H]].
      * reflexivity.
      * rewrite lookup_empty in H. discriminate.
    + intros H. inversion H; subst. apply lookup_insert_eq.
Qed.

(** C8: the empty payload resolves to the empty field map; the dictionary
    comprehension keeps exactly the items whose value is not [Unset]; and
    in the generic case a result holds a field only when the payload gave
    it, so an omitted full_name never shows up. *)
Theorem get_patch_fields_generic {W} (L : Externals W) :
  (forall w, get_patch_fields L (Mapping ∅) w = (Return ∅, w)) /\
  (forall p k v,
     not_Unset (vars_PatchUser p) !! k = Some v <->
     (k, Provided v) ∈ vars_PatchUser p) /\
  (forall (d : gmap string value) w m w',
     match_data (Mapping d) = CaseGeneric d ->
     get_patch_fields L (Mapping d) w = (Return m, w') ->
     w' = w /\
     forall k v, m !! k = Some v <->
                 k = "full_name" /\ d !! "full_name" = Some v).
Proof.
  split; [|split].
  - intros w. rewrite generic_run by reflexivity.
    rewrite dom_empty_L.
    rewrite bool_decide_eq_true_2 by apply empty_subseteq.
    rewrite lookup_empty. reflexivity.
  - apply not_Unset_vars.
  - intros d w m w' Hg Hrun. rewrite (generic_run L d w Hg) in Hrun.
    destruct (bool_decide _); inversion Hrun; subst.
    split; [reflexivity|]. intros k v.
    destruct (d !! "full_name") as [x|].
    + rewrite lookup_singleton_Some. split.
      * intros [<- <-]. auto.
      * intros [-> Hx]. inversion Hx. auto.
    + rewrite lookup_empty. split; [discriminate|].
      intros [_ Hx]. discriminate.
Qed.

Lemma get_patch_fields_generic_witness :
  get_patch_fields Fixture.libs (Mapping ∅) 0 = (Return ∅, 0) /\
  forall k v,
    ({[ "full_name" := VNone ]} : gmap string value) !! k = Some v <->
    k = "full_name" /\
    ({[ "full_name" := VNone ]} : gmap string value) !! "full_name" = Some v.
Proof.
  destruct (get_patch_fields_generic Fixture.libs) as (Hempty & _ & Hgen).
  split; [apply Hempty|].
  apply (Hgen {[ "full_name" := VNone ]} 0 {[ "full_name" := VNone ]} 0);
    vm_compute; reflexivity.
Defined.

(** ** The password branch and the user store *)

(** Two sets of imports that hash alike: the codec and bcrypt's salt and
    hash functions answer the same; the validator, the user table, the
    password check and the token service may differ at will. *)
Definition agree_on_hashing {W} (L L' : Externals W) : Prop :=
  (forall s w, str_encode L' s w = str_encode L s w) /\
  (forall b w, bytes_decode L' b w = bytes_decode L b w) /\
  (forall w, bcrypt_gensalt L' w = bcrypt_gensalt L w) /\
  (forall p s w, bcrypt_hashpw L' p s w = bcrypt_hashpw L p s w).

Lemma hash_password_decoded_agree {W} (L L' : Externals W) n w :
  agree_on_hashing L L' ->
  hash_password_decoded L' n w = hash_password_decoded L n w.
Proof.
  intros (Henc & Hdec & Hsalt & Hhash).
  unfold hash_password_decoded, hash_password, bind, ret.
  rewrite Hsalt. destruct (bcrypt_gensalt L w) as [[salt|e] w1]; [|reflexivity].
  assert (Hpw : encode_utf8 L' n w1 = encode_utf8 L n w1)
    by (destruct n; simpl; [reflexivity..|apply Henc]).
  rewrite Hpw. destruct (encode_utf8 L n w1) as [[pw|e] w2]; [|reflexivity].
  rewrite Hhash.
  destruct (bcrypt_hashpw L pw salt w2) as [[h|e] w3]; [|reflexivity].
  apply Hdec.
Qed.

Lemma hash_password_decoded_not_str {W} (L : Externals W) n w :
  (forall s, n <> VStr s) ->
  exists e w', hash_password_decoded L n w = (Raised e, w').
Proof.
  intros Hn. unfold hash_password_decoded, hash_password, bind.
  destruct (bcrypt_gensalt L w) as [[salt|e] w1]; [|eauto].
  destruct n; try (simpl; unfold raise; eauto).
  destruct (Hn s eq_refl).
Qed.

(** C9 (as amended): resolving a payload whose key set is exactly
    {old_password, new_password} and whose two values differ never consults
    a stored user record or a stored hash: the outcome is the same whatever
    the user table, the password check and the token service are, and is
    fixed by the payload, the salt drawn and the hashing functions alone.
    When the new password hashes without error the resolution succeeds, and
    the old password comes back as it was given, unverified; when the new
    password is not a string the resolution fails with the validation error
    "Passwords are invalid". *)
Theorem get_patch_fields_password_ignores_store
    {W} (L L' : Externals W) (d : gmap string value) o n (w : W) :
  agree_on_hashing L L' ->
  dom d = {[ "old_password"; "new_password" ]} ->
  d !! "old_password" = Some o -> d !! "new_password" = Some n ->
  py_eq n o = false ->
  get_patch_fields L' (Mapping d) w = get_patch_fields L (Mapping d) w /\
  (forall h w',
     hash_password_decoded L n w = (Return h, w') ->
     get_patch_fields L (Mapping d) w =
     (Return {[ "old_password" := o; "new_password" := VStr h ]}, w')) /\
  ((forall s, n <> VStr s) ->
   exists e w',
     get_patch_fields L (Mapping d) w =
     (Raised (UnprocessableContentException
                (inl "Passwords are invalid") (Some e)), w')).
Proof.
  intros Hagree Hdom Ho Hn Hne.
  destruct (password_keys d Hdom) as (He & _).
  pose proof (match_data_password d o n He Ho Hn) as Hm.
  assert (Hrun : forall L0 : Externals W,
             get_patch_fields L0 (Mapping d) w =
             match hash_password_decoded L0 n w with
             | (Return h, w') =>
                 (Return {[ "old_password" := o; "new_password" := VStr h ]},
                  w')
             | (Raised e, w') =>
                 (Raised (UnprocessableContentException
                            (inl "Passwords are invalid") (Some e)), w')
             end).
  { intros L0. unfold get_patch_fields. rewrite Hm.
    rewrite new_PatchUserPassword_run, Hne. reflexivity. }
  split; [|split].
  - rewrite !Hrun, (hash_password_decoded_agree L L' n w Hagree).
    reflexivity.
  - intros h w' Hh. rewrite Hrun, Hh. reflexivity.
  - intros Hs. destruct (hash_password_decoded_not_str L n w Hs) as (e & w' & Hh).
    exists e, w'. rewrite Hrun, Hh. reflexivity.
Qed.

Lemma get_patch_fields_password_ignores_store_witness :
  let d : gmap string value :=
    {[ "old_password" := VStr "a"; "new_password" := VStr "b" ]} in
  get_patch_fields Fixture.libs_empty_store (Mapping d) 0 =
    get_patch_fields Fixture.libs (Mapping d) 0 /\
  (forall h w',
     hash_password_decoded Fixture.libs (VStr "b") 0 = (Return h, w') ->
     get_patch_fields Fixture.libs (Mapping d) 0 =
     (Return {[ "old_password" := VStr "a"; "new_password" := VStr h ]}, w')) /\
  ((forall s, VStr "b" <> VStr s) ->
   exists e w',
     get_patch_fields Fixture.libs (Mapping d) 0 =
     (Raised (UnprocessableContentException
                (inl "Passwords are invalid") (Some e)), w')).
Proof.
  intros d.
  apply (get_patch_fields_password_ignores_store
           Fixture.libs Fixture.libs_empty_store d (VStr "a") (VStr "b") 0).
  - repeat split; intros; reflexivity.
  - vm_compute. reflexivity.
  - vm_compute. reflexivity.
  - vm_compute. reflexivity.
  - reflexivity.
Defined.

(** C9 as the claim words it does not hold: in the payload
    {old_password: "a", new_password: 5} the two values differ, yet the
    resolution fails, because an integer cannot be hashed. *)
Lemma get_patch_fields_password_differ_yet_fails :
  let d : gmap string value :=
    {[ "old_password" := VStr "a"; "new_password" := VInt 5 ]} in
  dom d = {[ "old_password"; "new_password" ]} /\
  py_eq (VInt 5) (VStr "a") = false /\
  get_patch_fields Fixture.libs (Mapping d) 0 =
    (Raised (UnprocessableContentException
               (inl "Passwords are invalid")
               (Some (PyError "AttributeError"
                        "'int' object has no attribute 'encode'"))), 1).
Proof.
  intros d. split; [vm_compute; reflexivity|].
  split; [reflexivity|]. vm_compute. reflexivity.
Qed.

(** ** [User.login] *)

(** Whatever goes wrong inside [login], one error leaves it. *)
Lemma login_raises_invalid_credentials
    {W} (L : Externals W) email password w e w' :
  login L email password w = (Raised e, w') ->
  observable e = AuthError "Invalid credentials" None.
Proof.
  unfold login, try_except. 
  destruct (bind _ _ w) as [[t|x] w1]; [discriminate|].
  unfold raise. intros H. inversion H. reflexivity.
Qed.

(** C3: a login with an e-mail that no stored user has, and a login with a
    stored user's e-mail and a password that does not match, both fail
    with the authorization error "Invalid credentials".  What a client sees
    of the two errors is identical; the two causes ("User not found",
    "Password is incorrect") stay behind as the chained exception. *)
Theorem login_anti_enumeration
    {W} (L : Externals W) email1 password1 email2 password2 user
    (w1 w1' w2 w2' w2'' : W) :
  query_filter_by_email_first L email1 w1 = (Return None, w1') ->
  query_filter_by_email_first L email2 w2 = (Return (Some user), w2') ->
  check_password L user password2 w2' = (Return false, w2'') ->
  let e1 := UnauthorizedException "Invalid credentials" None
              (Some (UnauthorizedException "User not found" None None)) in
  let e2 := UnauthorizedException "Invalid credentials" None
              (Some (UnauthorizedException "Password is incorrect" None None)) in
  login L email1 password1 w1 = (Raised e1, w1') /\
  login L email2 password2 w2 = (Raised e2, w2'') /\
  observable e1 = AuthError "Invalid credentials" None /\
  observable e2 = observable e1.
Proof.
  intros Hq1 Hq2 Hc e1 e2. repeat split.
  - unfold login, try_except, bind. rewrite Hq1. reflexivity.
  - unfold login, try_except, bind. rewrite Hq2, Hc. reflexivity.
Qed.

Lemma login_anti_enumeration_witness :
  login Fixture.libs "missing@example.com" "whatever" 0 =
    (Raised (UnauthorizedException "Invalid credentials" None
               (Some (UnauthorizedException "User not found" None None))),
     0) /\
  login Fixture.libs "real@example.com" "wrongpass" 0 =
    (Raised (UnauthorizedException "Invalid credentials" None
               (Some (UnauthorizedException "Password is incorrect"
                        None None))),
     0) /\
  observable
    (UnauthorizedException "Invalid credentials" None
       (Some (UnauthorizedException "User not found" None None)))
  = AuthError "Invalid credentials" None /\
  observable
    (UnauthorizedException "Invalid credentials" None
       (Some (UnauthorizedException "Password is incorrect" None None)))
  = observable
      (UnauthorizedException "Invalid credentials" None
         (Some (UnauthorizedException "User not found" None None))).
Proof.
  apply (login_anti_enumeration Fixture.libs
           "missing@example.com" "whatever" "real@example.com" "wrongpass"
           (mkUser 1 "real@example.com" "salt$rightpass" "Real User" "user")
           0 0 0 0 0); reflexivity.
Defined.

(** ** [User.authenticate] *)

(** The error every failure of [authenticate] is turned into. *)
Definition invalid_token (cause : exn) : exn :=
  UnauthorizedException "Invalid Token"
    (Some {[ "WWW-Authenticate" := "bearer" ]}) (Some cause).

(** C5: [authenticate] returns a user only for a header of the form
    "Bearer <token>" (the word Bearer, one space, and a token without a
    space) whose token verifies and whose user is found; for every other
    header, and whenever the verification or the lookup fails, it fails
    with the authorization error "Invalid Token" and the challenge header
    WWW-Authenticate: bearer. *)
Theorem authenticate_bearer_only {W} (L : Externals W) header (w : W) :
  (exists tok uid user w1 w2,
     header = ("Bearer " ++ tok)%string /\
     has_char " " tok = false /\
     verify_token L tok w = (Return uid, w1) /\
     get_one L uid w1 = (Return user, w2) /\
     authenticate L header w = (Return user, w2))
  \/
  (exists cause w',
     authenticate L header w = (Raised (invalid_token cause), w') /\
     observable (invalid_token cause) =
       AuthError "Invalid Token" (Some {[ "WWW-Authenticate" := "bearer" ]})).
Proof.
  unfold authenticate, try_except, invalid_token.
  destruct (split " " header) as [|a [|b [|c t]]] eqn:Hs;
    try (right; unfold raise; eauto; fail).
  destruct (String.eqb a "Bearer") eqn:Ha;
    [|right; unfold raise; eauto].
  apply String.eqb_eq in Ha. subst a.
  apply split_two in Hs as (-> & _ & Hb).
  unfold bind.
  destruct (verify_token L b w) as [[uid|e] w1] eqn:Hv;
    [|right; unfold raise; eauto].
  destruct (get_one L uid w1) as [[user|e] w2] eqn:Hg;
    [|right; unfold raise; eauto].
  left. exists b, uid, user, w1, w2. repeat split; assumption.
Qed.

(** ** [UserResponse] *)

(** C10: building a [UserResponse] runs the e-mail validation on the
    record's e-mail again: when the validator rejects it the construction
    fails with a validation error carrying the validator's error, and no
    record is returned; otherwise the record holds the normalized e-mail. *)
Theorem new_UserResponse_validates
    {W} (L : Externals W) email full_name role (w : W) :
  new_UserResponse L email full_name role w =
  match validate_email L (VStr email) w with
  | (Return normalized, w') =>
      (Return (mkUserResponse normalized full_name role), w')
  | (Raised exc, w') =>
      (Raised (UnprocessableContentException (inr exc) (Some exc)), w')
  end.
Proof.
  unfold new_UserResponse, try_except, bind, ret, raise.
  destruct (validate_email L (VStr email) w) as [[n|x] w']; reflexivity.
Qed.

(** ** Runs on the test double *)

Example authenticate_accepts_bearer :
  authenticate Fixture.libs "Bearer signed-token" 0 =
  (Return (mkUser 1 "real@example.com" "salt$rightpass" "Real User" "user"),
   0).
Proof. vm_compute. reflexivity. Qed.

Example authenticate_rejects_two_spaces :
  authenticate Fixture.libs "Bearer  signed-token" 0 =
  (Raised (invalid_token (UnauthorizedException "Invalid token" None None)),
   0).
Proof. vm_compute. reflexivity. Qed.

Example authenticate_rejects_lower_case_scheme :
  authenticate Fixture.libs "bearer signed-token" 0 =
  (Raised (invalid_token (UnauthorizedException "Invalid token" None None)),
   0).
Proof. vm_compute. reflexivity. Qed.

Example authenticate_rejects_tampered_token :
  authenticate Fixture.libs "Bearer signed-tokem" 0 =
  (Raised (invalid_token (PyError "InvalidTokenError" "bad signature")), 0).
Proof. vm_compute. reflexivity. Qed.

Example login_issues_token :
  login Fixture.libs "real@example.com" "rightpass" 0 =
  (Return ("signed-token", "expiry"), 0).
Proof. vm_compute. reflexivity. Qed.

Example new_UserResponse_malformed_email :
  new_UserResponse Fixture.libs "not-an-address" "Real User" "user" 0 =
  (Raised
     (UnprocessableContentException
        (inr (PyError "EmailNotValidError" "not a valid email address"))
        (Some (PyError "EmailNotValidError" "not a valid email address"))),
   0).
Proof. vm_compute. reflexivity. Qed.

Example get_patch_fields_same_password :
  get_patch_fields Fixture.libs
    (Mapping {[ "old_password" := VStr "x"; "new_password" := VStr "x" ]}) 0 =
  (Raised
     (UnprocessableContentException
        (inl "New password must be different from the old password") None),
   0).
Proof. vm_compute. reflexivity. Qed.

Example get_patch_fields_unknown_key :
  get_patch_fields Fixture.libs (Mapping {[ "nickname" := VStr "Ann" ]}) 0 =
  (Raised
     (UnprocessableContentException (inl "Invalid data")
        (Some (PyError "TypeError" "got an unexpected keyword argument"))),
   0).
Proof. vm_compute. reflexivity. Qed.

Example get_patch_fields_full_name_none :
  get_patch_fields Fixture.libs (Mapping {[ "full_name" := VNone ]}) 0 =
  (Return {[ "full_name" := VNone ]}, 0).
Proof. vm_compute. reflexivity. Qed.

Example get_patch_fields_not_a_mapping :
  get_patch_fields Fixture.libs (NotMapping (VStr "email")) 0 =
  (Raised (UnprocessableContentException (inl "Invalid data") None), 0).
Proof. reflexivity. Qed.


(** * Further properties of the module *)

(** ** [get_patch_fields]: failures, result keys, the generic branch *)

(** X1: Whatever the payload and whatever the libraries do, a failure of
    [get_patch_fields] is an [UnprocessableContentException]: no library
    error and no authorization error leaves it. *)
Theorem get_patch_fields_raises_validation_only
    {W} (L : Externals W) data (w : W) e w' :
  get_patch_fields L data w = (Raised e, w') ->
  exists detail cause, e = UnprocessableContentException detail cause.
Proof.
  unfold get_patch_fields. destruct (match_data data) as [em|o n|d|].
  - rewrite new_PatchUserEmail_run.
    destruct (validate_email L em w) as [[n|x] w1]; intros H; inversion H.
    eauto.
  - rewrite new_PatchUserPassword_run. destruct (py_eq n o).
    + intros H; inversion H. eauto.
    + destruct (hash_password_decoded L n w) as [[h|x] w1];
        intros H; inversion H. eauto.
  - unfold try_except_TypeError, try_except, bind, new_PatchUser.
    destruct (bool_decide _); simpl; intros H; inversion H. eauto.
  - intros H; inversion H. eauto.
Qed.

Lemma get_patch_fields_raises_validation_only_witness :
  exists detail cause,
    UnprocessableContentException (inl "Invalid data")
      (Some (PyError "TypeError" "got an unexpected keyword argument"))
    = UnprocessableContentException detail cause.
Proof.
  apply (get_patch_fields_raises_validation_only Fixture.libs
           (Mapping {[ "role" := VStr "admin" ]}) 0 _ 0).
  vm_compute. reflexivity.
Defined.

(** X2: The keys of a result are among email, old_password, new_password and
    full_name; in particular no payload makes the resolver return a field
    role, password or id. *)
Theorem get_patch_fields_result_keys
    {W} (L : Externals W) data (w : W) (m : gmap string value) w' :
  get_patch_fields L data w = (Return m, w') ->
  (forall k, k ∈ dom m ->
     k = "email" \/ k = "old_password" \/ k = "new_password" \/
     k = "full_name") /\
  m !! "role" = None /\ m !! "password" = None /\ m !! "id" = None.
Proof.
  intros Hrun.
  assert (Hk : forall k, k ∈ dom m ->
     k = "email" \/ k = "old_password" \/ k = "new_password" \/
     k = "full_name").
  { revert Hrun. unfold get_patch_fields.
    destruct (match_data data) as [em|o n|d|].
    - rewrite new_PatchUserEmail_run.
      destruct (validate_email L em w) as [[x|x] w1]; intros H; inversion H.
      intros k. rewrite dom_singleton_L, elem_of_singleton. auto.
    - rewrite new_PatchUserPassword_run. destruct (py_eq n o);
        [intros H; inversion H|].
      destruct (hash_password_decoded L n w) as [[h|x] w1];
        intros H; inversion H.
      intros k. rewrite dom_insert_L, dom_singleton_L.
      rewrite elem_of_union, !elem_of_singleton. intros [?|?]; auto.
    - unfold try_except_TypeError, try_except, bind, new_PatchUser.
      destruct (bool_decide _); simpl; intros H; inversion H.
      intros k. unfold not_Unset, vars_PatchUser. simpl.
      destruct (d !! "full_name"); simpl.
      + rewrite dom_insert_L, dom_empty_L, elem_of_union, elem_of_singleton.
        intros [?|Hx]; [auto|]. exfalso; revert Hx; apply not_elem_of_empty.
      + rewrite dom_empty_L. intros Hx.
        exfalso; revert Hx; apply not_elem_of_empty.
    - intros H; inversion H. }
  split; [exact Hk|].
  repeat split; apply not_elem_of_dom; intros Hin;
    destruct (Hk _ Hin) as [?|[?|[?|?]]]; discriminate.
Qed.

Lemma get_patch_fields_result_keys_witness :
  let m : gmap string value :=
    {[ "old_password" := VStr "a"; "new_password" := VStr "salt$b" ]} in
  (forall k, k ∈ dom m ->
     k = "email" \/ k = "old_password" \/ k = "new_password" \/
     k = "full_name") /\
  m !! "role" = None /\ m !! "password" = None /\ m !! "id" = None.
Proof.
  intros m.
  apply (get_patch_fields_result_keys Fixture.libs
           (Mapping {[ "old_password" := VStr "a"; "new_password" := VStr "b";
                       "role" := VStr "admin" ]}) 0 m 1).
  vm_compute. reflexivity.
Defined.

Lemma only_full_name (d : gmap string value) :
  dom d ⊆ {[ "full_name" ]} ->
  match d !! "full_name" with
  | Some v => {[ "full_name" := v ]}
  | None => ∅
  end = d.
Proof.
  intros Hsub. apply map_eq. intros k.
  destruct (decide (k = "full_name")) as [->|Hk].
  - destruct (d !! "full_name") as [v|] eqn:Hv.
    + apply lookup_singleton_eq.
    + apply lookup_empty.
  - assert (Hnone : d !! k = None).
    { apply not_elem_of_dom. intros Hin. apply Hsub in Hin.
      apply elem_of_singleton in Hin. contradiction. }
    rewrite Hnone. destruct (d !! "full_name").
    + apply lookup_singleton_ne. congruence.
    + apply lookup_empty.
Qed.

(** X3: A payload without the key email and without the full pair of password
    keys is a generic patch: when its keys are within {full_name} the
    resolver hands the payload back unchanged, and when it holds any other
    key it fails with "Invalid data"; either way no library is called (the
    world stays as it was). *)
Theorem get_patch_fields_generic_outcome
    {W} (L : Externals W) (d : gmap string value) (w : W) :
  d !! "email" = None ->
  d !! "old_password" = None \/ d !! "new_password" = None ->
  (dom d ⊆ {[ "full_name" ]} ->
   get_patch_fields L (Mapping d) w = (Return d, w)) /\
  (~ dom d ⊆ {[ "full_name" ]} ->
   get_patch_fields L (Mapping d) w =
   (Raised (UnprocessableContentException (inl "Invalid data")
              (Some (PyError "TypeError"
                       "got an unexpected keyword argument"))), w)).
Proof.
  intros He Hp.
  pose proof (generic_run L d w (match_data_generic d He Hp)) as Hrun.
  split; intros Hsub; rewrite Hrun.
  - rewrite bool_decide_eq_true_2 by assumption.
    rewrite (only_full_name d Hsub). reflexivity.
  - rewrite bool_decide_eq_false_2 by assumption. reflexivity.
Qed.

Lemma get_patch_fields_generic_outcome_witness :
  let d : gmap string value := {[ "full_name" := VStr "Ann" ]} in
  (dom d ⊆ {[ "full_name" ]} ->
   get_patch_fields Fixture.libs (Mapping d) 0 = (Return d, 0)) /\
  (~ dom d ⊆ {[ "full_name" ]} ->
   get_patch_fields Fixture.libs (Mapping d) 0 =
   (Raised (UnprocessableContentException (inl "Invalid data")
              (Some (PyError "TypeError"
                       "got an unexpected keyword argument"))), 0)).
Proof.
  intros d.
  apply (get_patch_fields_generic_outcome Fixture.libs d 0).
  - vm_compute. reflexivity.
  - left. vm_compute. reflexivity.
Defined.

(** X4: Half a password change is no password change: a payload without email
    that holds only one of old_password and new_password is rejected with
    "Invalid data", and nothing is hashed. *)
Theorem get_patch_fields_lone_password_key
    {W} (L : Externals W) (d : gmap string value) (w : W) :
  d !! "email" = None ->
  (is_Some (d !! "old_password") /\ d !! "new_password" = None) \/
  (d !! "old_password" = None /\ is_Some (d !! "new_password")) ->
  get_patch_fields L (Mapping d) w =
  (Raised (UnprocessableContentException (inl "Invalid data")
             (Some (PyError "TypeError"
                      "got an unexpected keyword argument"))), w).
Proof.
  intros He Hp.
  apply (get_patch_fields_generic_outcome L d w He).
  - destruct Hp as [[_ H]|[H _]]; auto.
  - intros Hsub.
    destruct Hp as [[Hin _]|[_ Hin]]; apply elem_of_dom in Hin;
      apply Hsub in Hin; apply elem_of_singleton in Hin; discriminate.
Qed.

Lemma get_patch_fields_lone_password_key_witness :
  get_patch_fields Fixture.libs
    (Mapping {[ "new_password" := VStr "b" ]}) 0 =
  (Raised (UnprocessableContentException (inl "Invalid data")
             (Some (PyError "TypeError"
                      "got an unexpected keyword argument"))), 0).
Proof.
  apply (get_patch_fields_lone_password_key Fixture.libs
           {[ "new_password" := VStr "b" ]} 0).
  - vm_compute. reflexivity.
  - right. split; [vm_compute; reflexivity|].
    exists (VStr "b"). vm_compute. reflexivity.
Defined.

(** X5: In the password branch further keys are ignored: a payload without
    email that holds old_password and new_password resolves exactly as the
    payload cut down to these two keys. *)
Theorem get_patch_fields_password_extra_keys
    {W} (L : Externals W) (d : gmap string value) o n :
  d !! "email" = None ->
  d !! "old_password" = Some o -> d !! "new_password" = Some n ->
  get_patch_fields L (Mapping d) =
  get_patch_fields L
    (Mapping {[ "old_password" := o; "new_password" := n ]}).
Proof.
  intros He Ho Hn. unfold get_patch_fields.
  rewrite (match_data_password d o n He Ho Hn).
  rewrite (match_data_password _ o n); [reflexivity|..].
  - rewrite lookup_insert_ne by discriminate.
    apply lookup_singleton_ne. discriminate.
  - apply lookup_insert_eq.
  - rewrite lookup_insert_ne by discriminate. apply lookup_singleton_eq.
Qed.

Lemma get_patch_fields_password_extra_keys_witness :
  get_patch_fields Fixture.libs
    (Mapping {[ "old_password" := VStr "a"; "new_password" := VStr "b";
                "role" := VStr "admin" ]}) =
  get_patch_fields Fixture.libs
    (Mapping {[ "old_password" := VStr "a"; "new_password" := VStr "b" ]}).
Proof.
  apply (get_patch_fields_password_extra_keys Fixture.libs
           {[ "old_password" := VStr "a"; "new_password" := VStr "b";
              "role" := VStr "admin" ]} (VStr "a") (VStr "b"));
    vm_compute; reflexivity.
Defined.

(** ** [User.login]: when a token is issued *)

(** X6: [login] returns a token exactly when the user is found, the password
    check answers true and the token service issues the token; the token is
    the one generated for the found user's id. *)
Theorem login_succeeds_iff
    {W} (L : Externals W) email password (w : W) tok w' :
  login L email password w = (Return tok, w') <->
  exists user w1 w2,
    query_filter_by_email_first L email w = (Return (Some user), w1) /\
    check_password L user password w1 = (Return true, w2) /\
    generate_token L (user_id user) w2 = (Return tok, w').
Proof.
  unfold login, try_except, bind. split.
  - destruct (query_filter_by_email_first L email w) as [[[user|]|x] w1];
      try (simpl; unfold raise; intros H; discriminate H).
    destruct (check_password L user password w1) as [[[|]|x] w2] eqn:Hc;
      try (simpl; unfold raise; intros H; discriminate H).
    destruct (generate_token L (user_id user) w2) as [[t|x] w3] eqn:Hg;
      try (simpl; unfold raise; intros H; discriminate H).
    intros H. inversion H; subst. exists user, w1, w2. auto.
  - intros (user & w1 & w2 & Hq & Hc & Hg).
    rewrite Hq, Hc, Hg. reflexivity.
Qed.

(** X7: [login] fails in exactly five ways, and each time the error is
    "Invalid credentials" without headers, with the exception raised inside
    the [try] block as its cause: the error of the database query; "User
    not found" when the query finds nobody; the error of [check_password]
    (codec, or bcrypt on a malformed stored hash); "Password is incorrect"
    when the check answers false; the error of the token service.  The
    world is left where the failing step left it. *)
Theorem login_fails_iff
    {W} (L : Externals W) email password (w : W) err w' :
  login L email password w = (Raised err, w') <->
  exists cause,
    err = UnauthorizedException "Invalid credentials" None (Some cause) /\
    (query_filter_by_email_first L email w = (Raised cause, w') \/
     (query_filter_by_email_first L email w = (Return None, w') /\
      cause = UnauthorizedException "User not found" None None) \/
     exists user w1,
       query_filter_by_email_first L email w = (Return (Some user), w1) /\
       (check_password L user password w1 = (Raised cause, w') \/
        (check_password L user password w1 = (Return false, w') /\
         cause = UnauthorizedException "Password is incorrect" None None) \/
        exists w2,
          check_password L user password w1 = (Return true, w2) /\
          generate_token L (user_id user) w2 = (Raised cause, w'))).
Proof.
  unfold login, try_except, bind, raise. split.
  - destruct (query_filter_by_email_first L email w) as [[[user|]|x] w1].
    + destruct (check_password L user password w1) as [[[|]|x] w2] eqn:Hc.
      * destruct (generate_token L (user_id user) w2) as [[t|x] w3] eqn:Hg;
          intros H; inversion H; subst.
        eexists; split; [reflexivity|].
        right; right. exists user, w1. split; [reflexivity|].
        right; right. exists w2. auto.
      * intros H; inversion H; subst.
        eexists; split; [reflexivity|].
        right; right. exists user, w1. split; [reflexivity|].
        right; left. auto.
      * intros H; inversion H; subst.
        eexists; split; [reflexivity|].
        right; right. exists user, w1. split; [reflexivity|].
        left. exact Hc.
    + intros H; inversion H; subst.
      eexists; split; [reflexivity|]. right; left. auto.
    + intros H; inversion H; subst.
      eexists; split; [reflexivity|]. left. reflexivity.
  - intros (cause & -> & [Hq|[[Hq ->]|(user & w1 & Hq & Hrest)]]).
    + rewrite Hq. reflexivity.
    + rewrite Hq. reflexivity.
    + rewrite Hq.
      destruct Hrest as [Hc|[[Hc ->]|(w2 & Hc & Hg)]].
      * rewrite Hc. reflexivity.
      * rewrite Hc. reflexivity.
      * rewrite Hc, Hg. reflexivity.
Qed.

(** ** [User.authenticate]: acceptance, and what a malformed header costs *)

(** X8: For a header "Bearer <token>" whose token has no space, the outcome is
    that of the token service and the user table: the token is verified,
    then the user of the id it carries is looked up and returned; an error
    of the verification ends the call before the user table is consulted,
    and either error becomes the cause of "Invalid Token". *)
Theorem authenticate_well_formed
    {W} (L : Externals W) tok (w : W) :
  has_char " " tok = false ->
  authenticate L ("Bearer " ++ tok) w =
  match verify_token L tok w with
  | (Raised exc, w1) => (Raised (invalid_token exc), w1)
  | (Return uid, w1) =>
      match get_one L uid w1 with
      | (Raised exc, w2) => (Raised (invalid_token exc), w2)
      | (Return user, w2) => (Return user, w2)
      end
  end.
Proof.
  intros Hsp. unfold authenticate, try_except.
  rewrite (split_bearer tok Hsp). simpl. unfold bind.
  destruct (verify_token L tok w) as [[uid|x] w1]; [|reflexivity].
  destruct (get_one L uid w1) as [[user|x] w2]; reflexivity.
Qed.

Lemma authenticate_well_formed_witness :
  authenticate Fixture.libs ("Bearer " ++ "signed-token") 0 =
  match verify_token Fixture.libs "signed-token" 0 with
  | (Raised exc, w1) => (Raised (invalid_token exc), w1)
  | (Return uid, w1) =>
      match get_one Fixture.libs uid w1 with
      | (Raised exc, w2) => (Raised (invalid_token exc), w2)
      | (Return user, w2) => (Return user, w2)
      end
  end.
Proof.
  apply (authenticate_well_formed Fixture.libs "signed-token" 0).
  reflexivity.
Defined.

(** X9: A header that is not "Bearer ", followed by a token free of spaces, is
    turned down before anything is looked at: the token service and the
    user table are not consulted (the world stays as it was), and the
    cause recorded is "Invalid token". *)
Theorem authenticate_malformed_header
    {W} (L : Externals W) header (w : W) :
  (forall tok, header = ("Bearer " ++ tok)%string ->
               has_char " " tok = true) ->
  authenticate L header w =
  (Raised (invalid_token (UnauthorizedException "Invalid token" None None)),
   w).
Proof.
  intros Hshape. unfold authenticate, try_except.
  destruct (split " " header) as [|a [|b [|c t]]] eqn:Hs; try reflexivity.
  destruct (String.eqb a "Bearer") eqn:Ha; [|reflexivity].
  apply String.eqb_eq in Ha. subst a.
  apply split_two in Hs as (Hh & _ & Hb).
  rewrite (Hshape b Hh) in Hb. discriminate.
Qed.

Lemma authenticate_malformed_header_witness :
  authenticate Fixture.libs "Bearer signed-token trailing" 0 =
  (Raised (invalid_token (UnauthorizedException "Invalid token" None None)),
   0).
Proof.
  apply (authenticate_malformed_header Fixture.libs).
  intros tok H. vm_compute in H. inversion H. reflexivity.
Defined.

(** ** [CreateUser] *)

(** The steps of [CreateUser]: the e-mail first, the password second. *)
Lemma new_CreateUser_run
    {W} (L : Externals W) email password full_name (w : W) :
  new_CreateUser L email password full_name w =
  match validate_email L email w with
  | (Raised exc, w1) =>
      (Raised (UnprocessableContentException (inr exc) (Some exc)), w1)
  | (Return normalized, w1) =>
      match hash_password_decoded L password w1 with
      | (Raised exc, w2) =>
          (Raised (UnprocessableContentException (inr exc) (Some exc)), w2)
      | (Return text, w2) =>
          (Return (mkCreateUser (VStr normalized) (VStr text)
                     full_name "user"), w2)
      end
  end.
Proof.
  unfold new_CreateUser, hash_password_decoded, try_except, bind, ret, raise.
  destruct (validate_email L email w) as [[n|x] w1]; [|reflexivity].
  destruct (hash_password L password w1) as [[h|x] w2]; [|reflexivity].
  destruct (bytes_decode L h w2) as [[t|x] w3]; reflexivity.
Qed.

(** ** One validator behind every e-mail *)

(** X11: The e-mail patch and the response serializer treat an address alike:
    in the same world, [get_patch_fields] on a payload
    with that address accepts it exactly when [UserResponse] does, with the
    same normalized form, and rejects it with the same error. *)
Theorem email_patch_agrees_with_response
    {W} (L : Externals W) (d : gmap string value) email full_name role
    (w : W) :
  d !! "email" = Some (VStr email) ->
  match new_UserResponse L email full_name role w,
        get_patch_fields L (Mapping d) w with
  | (Return resp, w1), (Return m, w2) =>
      m = {[ "email" := VStr (resp_email resp) ]} /\ w1 = w2
  | (Raised x, w1), (Raised y, w2) => x = y /\ w1 = w2
  | _, _ => False
  end.
Proof.
  intros He. unfold get_patch_fields. rewrite (match_data_email d _ He).
  rewrite new_PatchUserEmail_run.
  unfold new_UserResponse, try_except, bind, ret, raise.
  destruct (validate_email L (VStr email) w) as [[n|x] w1]; simpl; auto.
Qed.

Lemma email_patch_agrees_with_response_witness :
  match new_UserResponse Fixture.libs "a@b.com" "Ann" "user" 0,
        get_patch_fields Fixture.libs
          (Mapping {[ "email" := VStr "a@b.com"; "nickname" := VStr "Ann" ]})
          0 with
  | (Return resp, w1), (Return m, w2) =>
      m = {[ "email" := VStr (resp_email resp) ]} /\ w1 = w2
  | (Raised x, w1), (Raised y, w2) => x = y /\ w1 = w2
  | _, _ => False
  end.
Proof.
  apply (email_patch_agrees_with_response Fixture.libs
           {[ "email" := VStr "a@b.com"; "nickname" := VStr "Ann" ]}
           "a@b.com" "Ann" "user" 0).
  vm_compute. reflexivity.
Defined.

(** ** [str.split] and [str.join] *)

Lemma split_pieces_no_sep sep s :
  Forall (fun p => has_char sep p = false) (split sep s).
Proof.
  induction s as [|c r IH]; simpl.
  - repeat constructor.
  - destruct (Ascii.eqb c sep) eqn:Hc.
    + constructor; [reflexivity | exact IH].
    + destruct (split sep r) as [|h t].
      * repeat constructor. simpl. rewrite Hc. reflexivity.
      * inversion IH as [|? ? Hh Ht]; subst.
        constructor; [|exact Ht]. simpl. rewrite Hc, Hh. reflexivity.
Qed.

(** X12: Splitting loses nothing: the pieces of [s.split(sep)] hold no
    separator, and joining them with the separator gives [s] back; so what
    [authenticate] matches on is the header itself, cut at every space. *)
Theorem split_join sep s :
  join sep (split sep s) = s /\
  Forall (fun p => has_char sep p = false) (split sep s).
Proof.
  split; [|apply split_pieces_no_sep].
  induction s as [|c r IH]; simpl; [reflexivity|].
  destruct (Ascii.eqb c sep) eqn:Hc.
  - apply Ascii.eqb_eq in Hc. subst c.
    destruct (split sep r) as [|h t] eqn:Hs.
    + destruct (split_nonempty _ _ Hs).
    + rewrite <- IH. reflexivity.
  - destruct (split sep r) as [|h t] eqn:Hs.
    + destruct (split_nonempty _ _ Hs).
    + rewrite <- IH. destruct t; reflexivity.
Qed.

(** * Hashing, then verifying *)

(** ** What the module expects of the codec and of bcrypt

    [user.py] stores [hash_password(p).decode('utf-8')] and later hands
    [self.password.encode('utf-8')] to [bcrypt.checkpw].  That this works
    rests on four facts about the imported libraries, stated here on their
    runs (the world they are called in plays no part in them). *)










(** ** The test double keeps the contract *)





(** ** [CreateUser] beside the password patch and [login] *)

(** X10: a password set at creation and one set by a password patch are
    stored in the same form.  Once the e-mail has been validated,
    [CreateUser] and [get_patch_fields] on a password payload with that new
    password draw the same salt and end in the same world; both succeed or
    both fail; on success the patch's field new_password is the password of
    the created record, and on failure both carry the same underlying
    error, which creation shows as the detail and the patch hides behind
    "Passwords are invalid". *)
Theorem create_and_patch_store_alike
    {W} (L : Externals W) (d : gmap string value)
    email p o full_name (w0 : W) n w :
  validate_email L email w0 = (Return n, w) ->
  d !! "email" = None ->
  d !! "old_password" = Some o -> d !! "new_password" = Some p ->
  py_eq p o = false ->
  match new_CreateUser L email p full_name w0,
        get_patch_fields L (Mapping d) w with
  | (Return cu, wa), (Return m, wb) =>
      m !! "new_password" = Some (cu_password cu) /\ wa = wb
  | (Raised x, wa), (Raised y, wb) =>
      wa = wb /\
      exists c,
        x = UnprocessableContentException (inr c) (Some c) /\
        y = UnprocessableContentException
              (inl "Passwords are invalid") (Some c)
  | _, _ => False
  end.
Proof.
  intros Hv He Ho Hn Hne. rewrite new_CreateUser_run, Hv.
  unfold get_patch_fields. rewrite (match_data_password d o p He Ho Hn).
  rewrite new_PatchUserPassword_run, Hne.
  destruct (hash_password_decoded L p w) as [[h|x] w1]; simpl.
  - split; [|reflexivity].
    rewrite lookup_insert_ne by discriminate. apply lookup_singleton_eq.
  - split; [reflexivity|]. exists x. auto.
Qed.

Lemma create_and_patch_store_alike_witness :
  match new_CreateUser Fixture.libs
          (VStr "a@b.com") (VStr "b") (VStr "Ann") 0,
        get_patch_fields Fixture.libs
          (Mapping {[ "old_password" := VStr "a";
                      "new_password" := VStr "b" ]}) 0 with
  | (Return cu, wa), (Return m, wb) =>
      m !! "new_password" = Some (cu_password cu) /\ wa = wb
  | (Raised x, wa), (Raised y, wb) =>
      wa = wb /\
      exists c,
        x = UnprocessableContentException (inr c) (Some c) /\
        y = UnprocessableContentException
              (inl "Passwords are invalid") (Some c)
  | _, _ => False
  end.
Proof.
  apply (create_and_patch_store_alike Fixture.libs
           {[ "old_password" := VStr "a"; "new_password" := VStr "b" ]}
           (VStr "a@b.com") (VStr "b") (VStr "a") (VStr "Ann") 0 "a@b.com" 0);
    vm_compute; reflexivity.
Defined.


